(** * sample.cpp: squares, a counting loop and a threshold branch

    A shallow embedding of [src/input_examples/sample.cpp] and the proofs of
    its specification.

    - [int] is a 32-bit two's-complement integer, carried as a [Z] with the
      wrap-around of every arithmetic operation written out ([wrap]).  The
      C++ standard leaves signed overflow undefined; [wrap] is what the
      mainstream targets compute, and [no_overflow] names the inputs on
      which no operation of the program overflows at all.
    - The statements of [main] run in a state-and-fault monad [prog].  The
      state holds the pending tokens of standard input, the locals that the
      program mutates ([a] and [arr]) and the trace of everything the
      program did, in order.  Standard input is the list of the integers
      its tokens denote: how the library turns characters into an [int] is
      not part of the program.  A fault is an execution the C++ standard gives
      no meaning to: an array access out of bounds, a read of a slot or a
      local that was never written, an extraction from an exhausted input.
    - The loops are total functions: their termination is proved where they
      are defined. *)

From Stdlib Require Import ZArith Lia Ascii String.
From stdpp Require Import base decidable option list numbers strings pretty.
From Equations Require Import Equations.
From Equations.Prop Require Import Logic.

Local Open Scope Z_scope.

(** ** Machine integers *)

Module Int.

Definition min_int : Z := -2147483648.
Definition max_int : Z := 2147483647.
Definition modulus : Z := 4294967296.

(** [x] is a value of type [int]. *)
Definition in_int (x : Z) : Prop := min_int <= x <= max_int.

(** The representative of [z] modulo [2^32] that lies in [int]. *)
Definition wrap (z : Z) : Z := (z - min_int) mod modulus + min_int.

Definition add (x y : Z) : Z := wrap (x + y).
Definition mul (x y : Z) : Z := wrap (x * y).

End Int.

(** ** The arithmetic helper

    [int square(int x) { return x * x; }] *)

Definition square (x : Z) : Z := Int.mul x x.

(** ** Program state *)

(** What the program does, one event per action, in program order. *)
Inductive event : Type :=
  | Out (text : string)       (* [cout << ...]: text appended to standard output *)
  | In (v : Z)                (* [cin >> b]: one integer taken from standard input *)
  | SetA (v : Z)              (* a write to the counter [a] *)
  | Store (i : Z) (v : Z)     (* [arr[i] = v] *)
  | Load (i : Z) (v : Z).     (* a read of [arr[i]], which held [v] *)

(** Executions without a meaning. *)
Inductive fault : Type :=
  | OutOfBounds (i : Z)       (* [arr[i]] with [i] outside the array *)
  | Indeterminate             (* a read of something never written *)
  | NoInput.                  (* extraction from an exhausted input *)

Record state : Type := mkState {
  stdin : list Z;             (* integer tokens not yet read *)
  a : option Z;               (* [int a]; [None] until it is initialised *)
  arr : list (option Z);      (* [int arr[3]]; a slot is [None] until written *)
  trace : list event          (* oldest event first *)
}.

Definition log (e : event) (s : state) : state :=
  mkState (stdin s) (a s) (arr s) (trace s ++ [e]).

Inductive outcome (A : Type) : Type :=
  | Done (x : A) (s : state)
  | Fault (f : fault).
Arguments Done {A} x s.
Arguments Fault {A} f.

Definition prog (A : Type) : Type := state -> outcome A.

#[global] Instance prog_ret : MRet prog := fun A x s => Done x s.
#[global] Instance prog_bind : MBind prog := fun A B k m s =>
  match m s with
  | Done x s' => k x s'
  | Fault f => Fault f
  end.

(** *** Console *)

(** The line feed, character 10. *)
Definition newline : string := String "010"%char EmptyString.

(** [cout << text] *)
Definition cout (text : string) : prog unit :=
  fun s => Done tt (log (Out text) s).

(** [cout << n] for an [int]: its decimal digits, with a sign when negative. *)
Definition cout_int (n : Z) : prog unit := cout (pretty n).

(** [cout << endl] *)
Definition endl : prog unit := cout newline.

(** [cin >> b] on an input that holds an integer token. *)
Definition cin_int : prog Z :=
  fun s =>
    match stdin s with
    | v :: rest => Done v (log (In v) (mkState rest (a s) (arr s) (trace s)))
    | [] => Fault NoInput
    end.

(** *** Locals *)

(** [a = v], also the initialisation [int a = v]. *)
Definition set_a (v : Z) : prog unit :=
  fun s => Done tt (log (SetA v) (mkState (stdin s) (Some v) (arr s) (trace s))).

Definition get_a : prog Z :=
  fun s => match a s with Some v => Done v s | None => Fault Indeterminate end.

(** [int arr[n];]: [n] slots, none of them written. *)
Definition decl_arr (n : nat) : prog unit :=
  fun s => Done tt (mkState (stdin s) (a s) (replicate n None) (trace s)).

Definition in_bounds (i : Z) (l : list (option Z)) : Prop :=
  0 <= i < Z.of_nat (length l).

(** [arr[i] = v] *)
Definition arr_store (i v : Z) : prog unit :=
  fun s =>
    if decide (in_bounds i (arr s)) then
      Done tt (log (Store i v)
                 (mkState (stdin s) (a s) (<[Z.to_nat i := Some v]> (arr s)) (trace s)))
    else Fault (OutOfBounds i).

(** The value of [arr[i]]. *)
Definition arr_load (i : Z) : prog Z :=
  fun s =>
    if decide (in_bounds i (arr s)) then
      match arr s !! Z.to_nat i with
      | Some (Some v) => Done v (log (Load i v) s)
      | _ => Fault Indeterminate
      end
    else Fault (OutOfBounds i).

(** ** The loops of [main] *)

(** Termination of a loop that counts [i] up to a small bound: [i + 1] does
    not wrap below the bound, so the distance to the bound shrinks. *)
Ltac count_up_variant i :=
  unfold Int.add, Int.wrap, Int.min_int, Int.modulus;
  pose proof (Z.mod_pos_bound (i + 1 - -2147483648) 4294967296 eq_refl);
  destruct (decide (-2147483648 <= i + 1));
  [ rewrite Z.mod_small by lia; lia | lia ].

(** [for (int i = 0; i < 3; i++) { arr[i] = square(i + b); }], from the
    current value of [i]. *)
Equations? fill_loop (b i : Z) : prog unit by wf (Z.to_nat (3 - i)) lt :=
  fill_loop b i with decide (i < 3) := {
    | left _ => arr_store i (square (Int.add i b)) ;; fill_loop b (Int.add i 1)
    | right _ => mret tt }.
Proof. count_up_variant i. Qed.

(** One pass through the body of the while loop:
    [cout << msg << " " << a << endl; a++;] *)
Definition hello_body (msg : string) : prog unit :=
  cout msg ;; cout " " ;; v ← get_a; cout_int v ;; endl ;;
  v ← get_a; set_a (Int.add v 1).

(** The variant of the while loop: the distance from [a] to its bound. *)
Definition hello_variant (s : state) : nat :=
  match a s with Some v => Z.to_nat (10 - v) | None => 0%nat end.

(** [while (a < 10) { cout << msg << " " << a << endl; a++; }] *)
Equations? hello_loop (msg : string) (s : state) : outcome unit
    by wf (hello_variant s) lt :=
  hello_loop msg s with inspect (a s) := {
    | exist _ None _ => Fault Indeterminate
    | exist _ (Some v) Hv with decide (v < 10) := {
      | right _ => Done tt s
      | left Hlt with inspect (hello_body msg s) := {
        | exist _ (Fault f) _ => Fault f
        | exist _ (Done _ s') Hb => hello_loop msg s' } } }.
Proof.
  unfold hello_body, mbind, prog_bind, cout, cout_int, endl, get_a, set_a, log in Hb.
  cbn [a stdin arr trace] in Hb. rewrite Hv in Hb. inversion Hb; subst s'.
  unfold hello_variant. cbn [a]. rewrite Hv.
  count_up_variant v.
Qed.

(** [for (int i = 0; i < 3; i++) { cout << arr[i] << " "; }], from the
    current value of [i]. *)
Equations? print_loop (i : Z) : prog unit by wf (Z.to_nat (3 - i)) lt :=
  print_loop i with decide (i < 3) := {
    | left _ => v ← arr_load i; cout_int v ;; cout " " ;; print_loop (Int.add i 1)
    | right _ => mret tt }.
Proof. count_up_variant i. Qed.

(** ** The program driver *)

(** [if (b > 10) { cout << "Big number!" << endl; }
     else { cout << "Small number!" << endl; }] *)
Definition threshold_branch (b : Z) : prog unit :=
  if decide (b > 10) then cout "Big number!" ;; endl
  else cout "Small number!" ;; endl.

(** [int main()]: the value it yields is the exit code. *)
Definition main : prog Z :=
  set_a 5 ;;
  decl_arr 3 ;;
  let msg := "Hello" in
  cout "Enter a number: " ;;
  b ← cin_int;
  fill_loop b 0 ;;
  hello_loop msg ;;
  threshold_branch b ;;
  cout "Array values: " ;;
  print_loop 0 ;;
  endl ;;
  mret 0.

(** The state a run starts from: the tokens waiting on standard input, and
    nothing else. *)
Definition initial (input : list Z) : state := mkState input None [] [].

(** A run of the program on the given input. *)
Definition run (input : list Z) : outcome Z := main (initial input).

(** ** Reading a trace *)

(** The text written to standard output, in the order it was written. *)
Fixpoint stdout (t : list event) : string :=
  match t with
  | [] => ""
  | Out text :: t' => text +:+ stdout t'
  | _ :: t' => stdout t'
  end.

(** The events that are visible outside the process: console traffic. *)
Definition is_io (e : event) : bool :=
  match e with Out _ | In _ => true | _ => false end.

Definition io (t : list event) : list event := List.filter is_io t.

(** The integers taken from standard input. *)
Definition reads (t : list event) : list Z :=
  omap (fun e => match e with In v => Some v | _ => None end) t.

(** The successive values written to the counter [a]. *)
Definition writes_a (t : list event) : list Z :=
  omap (fun e => match e with SetA v => Some v | _ => None end) t.

(** The index of every access to [arr], reads and writes alike. *)
Definition accessed (t : list event) : list Z :=
  omap (fun e => match e with Store i _ | Load i _ => Some i | _ => None end) t.

(** What happened to slot [i] of [arr], in order. *)
Definition on_slot (i : Z) (e : event) : bool :=
  match e with Store j _ | Load j _ => bool_decide (j = i) | _ => false end.

Definition slot_events (i : Z) (t : list event) : list event :=
  List.filter (on_slot i) t.

(** The events of one pass through the body of the while loop, entered with
    the counter at [v] (and [v + 1] representable). *)
Definition hello_events (msg : string) (v : Z) : list event :=
  [Out msg; Out " "; Out (pretty v); Out newline; SetA (v + 1)].

(** The values the fill loop computes for input [b]. *)
Definition squares (b : Z) : list Z :=
  (fun i => square (Int.add i b)) <$> [0; 1; 2].

(** The line [threshold_branch] chooses. *)
Definition verdict (b : Z) : string :=
  if decide (b > 10) then "Big number!" else "Small number!".

(** One line of output: the text, then the line feed. *)
Definition line (text : string) : string := text +:+ newline.

(** The five lines the while loop prints. *)
Definition hello_lines : string :=
  line "Hello 5" +:+ line "Hello 6" +:+ line "Hello 7" +:+ line "Hello 8"
  +:+ line "Hello 9".

(** The last line of output for array contents [vs]: the label, then every
    element followed by one space, then the line feed. *)
Definition array_line (vs : list Z) : string :=
  "Array values: " +:+ foldr (fun v rest => pretty v +:+ " " +:+ rest) newline vs.

(** Everything a run on input [b] writes to standard output. *)
Definition expected_output (b : Z) : string :=
  "Enter a number: " +:+ hello_lines +:+ line (verdict b)
  +:+ array_line (squares b).

(** The standard output of a finished run; a faulted run has none. *)
Definition output_of (o : outcome Z) : option string :=
  match o with
  | Done _ s => Some (stdout (trace s))
  | Fault _ => None
  end.

(** The characters a printed [int] is made of. *)
Definition int_char (c : ascii) : bool :=
  existsb (Ascii.eqb c) (list_ascii_of_string "-0123456789").

Fixpoint all_chars (p : ascii -> bool) (s : string) : bool :=
  match s with
  | EmptyString => true
  | String c s' => p c && all_chars p s'
  end.

(** No operation of the fill loop overflows on input [b]: the sums and the
    products are representable as they stand. *)
Definition no_overflow (b : Z) : Prop :=
  Forall (fun i => Int.in_int (i + b) /\ Int.in_int ((i + b) * (i + b))) [0; 1; 2].

(** The number of slots of [arr]. *)
Definition arr_length (s : state) : nat := length (arr s).

(** Whenever [m] completes, it leaves the component [f] of the state as it
    found it. *)
Definition preserves {A B : Type} (f : state -> B) (m : prog A) : Prop :=
  forall s, match m s with Done _ s' => f s' = f s | Fault _ => True end.

(** The squares of [b], [b + 1] and [b + 2] as integers, with no wrap. *)
Definition exact_squares (b : Z) : list Z :=
  [b * b; (b + 1) * (b + 1); (b + 2) * (b + 2)].

(** How often the character [c] occurs in [s]. *)
Fixpoint count_char (c : ascii) (s : string) : nat :=
  match s with
  | EmptyString => 0%nat
  | String d s' => ((if Ascii.eqb c d then 1 else 0) + count_char c s')%nat
  end.

(** ** Facts about machine integers *)

Lemma wrap_in_int (z : Z) : Int.in_int (Int.wrap z).
Proof.
  unfold Int.in_int, Int.wrap, Int.min_int, Int.max_int, Int.modulus.
  pose proof (Z.mod_pos_bound (z - -2147483648) 4294967296 eq_refl). lia.
Qed.

Lemma wrap_small (z : Z) : Int.in_int z -> Int.wrap z = z.
Proof.
  unfold Int.in_int, Int.wrap, Int.min_int, Int.max_int, Int.modulus.
  intros Hz. rewrite Z.mod_small by lia. lia.
Qed.

(** ** The loops, one step at a time *)

Lemma fill_loop_step (b i : Z) :
  fill_loop b i =
    if decide (i < 3)
    then arr_store i (square (Int.add i b)) ;; fill_loop b (Int.add i 1)
    else mret tt.
Proof.
  rewrite fill_loop_equation_1. destruct (decide (i < 3)).
  - now rewrite fill_loop_clause_1_equation_1.
  - now rewrite fill_loop_clause_1_equation_2.
Qed.

Lemma print_loop_step (i : Z) :
  print_loop i =
    if decide (i < 3)
    then v ← arr_load i; cout_int v ;; cout " " ;; print_loop (Int.add i 1)
    else mret tt.
Proof.
  rewrite print_loop_equation_1. destruct (decide (i < 3)).
  - now rewrite print_loop_clause_1_equation_1.
  - now rewrite print_loop_clause_1_equation_2.
Qed.

Lemma hello_loop_step (msg : string) (s : state) :
  hello_loop msg s =
    (v ← get_a;
     if decide (v < 10) then hello_body msg ;; hello_loop msg else mret tt) s.
Proof.
  rewrite hello_loop_equation_1.
  assert (Hrhs : forall v, a s = Some v ->
            (v ← get_a;
             if decide (v < 10) then hello_body msg ;; hello_loop msg else mret tt) s
            = (if decide (v < 10) then hello_body msg ;; hello_loop msg else mret tt) s).
  { intros v Hv. unfold mbind at 1. unfold prog_bind, get_a. now rewrite Hv. }
  destruct (inspect (a s)) as [[v|] Hv].
  - rewrite hello_loop_clause_1_equation_1, (Hrhs v Hv).
    destruct (decide (v < 10)) as [Hlt|Hge].
    + rewrite hello_loop_clause_1_clause_2_equation_1.
      destruct (inspect (hello_body msg s)) as [[x s'|f] Hb].
      * rewrite hello_loop_clause_1_clause_2_clause_2_equation_1.
        unfold mbind, prog_bind. now rewrite Hb.
      * rewrite hello_loop_clause_1_clause_2_clause_2_equation_2.
        unfold mbind, prog_bind. now rewrite Hb.
    + now rewrite hello_loop_clause_1_clause_2_equation_2.
  - rewrite hello_loop_clause_1_equation_2.
    unfold mbind, prog_bind, get_a. now rewrite Hv.
Qed.

(** ** Running the statements symbolically *)

#[local] Arguments Int.add : simpl never.
#[local] Arguments Int.mul : simpl never.
#[local] Arguments square : simpl never.
#[local] Arguments pretty : simpl never.

(** Unfold the statements down to their effect on the state. *)
Ltac run_prims :=
  repeat (progress (
    unfold hello_body, threshold_branch, mbind, prog_bind, mret, prog_ret,
      arr_store, arr_load, cout_int, cout, endl, set_a, get_a, cin_int,
      decl_arr, log;
    cbn; simpl)).

Lemma add_small (x y : Z) : Int.in_int (x + y) -> Int.add x y = x + y.
Proof. apply wrap_small. Qed.

Lemma fill_loop_run (b : Z) (inp : list Z) (va x0 x1 x2 : option Z) (t : list event) :
  fill_loop b 0 (mkState inp va [x0; x1; x2] t) =
  Done tt (mkState inp va (Some <$> squares b)
             (t ++ ((fun i => Store i (square (Int.add i b))) <$> [0; 1; 2]))).
Proof.
  rewrite fill_loop_step, decide_True by lia. run_prims.
  change (Int.add 0 1) with 1.
  rewrite fill_loop_step, decide_True by lia. run_prims.
  change (Int.add 1 1) with 2.
  rewrite fill_loop_step, decide_True by lia. run_prims.
  change (Int.add 2 1) with 3.
  rewrite fill_loop_step, decide_False by lia.
  cbn. rewrite <- !app_assoc. reflexivity.
Qed.

(** The while loop entered with the counter [n] below its bound makes [n]
    passes, for the counter values from [10 - n] to [9], and leaves it at
    the bound. *)
Lemma hello_loop_count (msg : string) (n : nat) :
  forall (v : Z) (inp : list Z) (l : list (option Z)) (t : list event),
    v = 10 - Z.of_nat n -> Int.min_int <= v ->
    hello_loop msg (mkState inp (Some v) l t) =
    Done tt (mkState inp (Some 10) l
               (t ++ flat_map (hello_events msg) (seqZ v (Z.of_nat n)))).
Proof.
  induction n as [|n IH]; intros v inp l t Hv Hmin; rewrite hello_loop_step.
  - run_prims. rewrite decide_False by lia. cbn.
    rewrite app_nil_r. f_equal. f_equal. f_equal. lia.
  - run_prims. rewrite decide_True by lia. run_prims.
    rewrite add_small by (unfold Int.in_int, Int.max_int; lia).
    rewrite (IH (v + 1)) by lia.
    rewrite (seqZ_cons v) by lia. cbn [flat_map].
    replace (Z.pred (Z.of_nat (S n))) with (Z.of_nat n) by lia.
    unfold hello_events at 2. rewrite <- !app_assoc. reflexivity.
Qed.

Lemma print_loop_run (inp : list Z) (va : option Z) (v0 v1 v2 : Z) (t : list event) :
  print_loop 0 (mkState inp va [Some v0; Some v1; Some v2] t) =
  Done tt (mkState inp va [Some v0; Some v1; Some v2]
             (t ++ [Load 0 v0; Out (pretty v0); Out " ";
                    Load 1 v1; Out (pretty v1); Out " ";
                    Load 2 v2; Out (pretty v2); Out " "])).
Proof.
  rewrite print_loop_step, decide_True by lia. run_prims.
  change (Int.add 0 1) with 1.
  rewrite print_loop_step, decide_True by lia. run_prims.
  change (Int.add 1 1) with 2.
  rewrite print_loop_step, decide_True by lia. run_prims.
  change (Int.add 2 1) with 3.
  rewrite print_loop_step, decide_False by lia.
  cbn. rewrite <- !app_assoc. reflexivity.
Qed.

(** The whole trace of a run on input [b]. *)
Lemma main_run (b : Z) (rest : list Z) :
  run (b :: rest) =
  Done 0 (mkState rest (Some 10) (Some <$> squares b)
            ([SetA 5; Out "Enter a number: "; In b]
             ++ ((fun i => Store i (square (Int.add i b))) <$> [0; 1; 2])
             ++ flat_map (hello_events "Hello") [5; 6; 7; 8; 9]
             ++ [Out (verdict b); Out newline; Out "Array values: "]
             ++ flat_map (fun '(i, v) => [Load i v; Out (pretty v); Out " "])
                  (zip [0; 1; 2] (squares b))
             ++ [Out newline])).
Proof.
  unfold run, main, initial. run_prims.
  rewrite fill_loop_run. cbn.
  rewrite (hello_loop_count "Hello" 5) by (unfold Int.min_int; lia). cbn.
  unfold verdict. destruct (decide (b > 10)); run_prims;
    rewrite print_loop_run; cbn; reflexivity.
Qed.

(** ** Frame rules: what a statement leaves alone *)

Create HintDb frame.

Lemma preserves_ret {A B : Type} (f : state -> B) (x : A) :
  preserves f (mret x : prog A).
Proof. intros s. reflexivity. Qed.

Lemma preserves_bind {A A' B : Type} (f : state -> B) (m : prog A) (k : A -> prog A') :
  preserves f m -> (forall x, preserves f (k x)) -> preserves f (m ≫= k).
Proof.
  intros Hm Hk s. unfold mbind, prog_bind. specialize (Hm s).
  destruct (m s) as [x s1|]; [|exact I].
  specialize (Hk x s1). destruct (k x s1); [congruence|exact I].
Qed.

#[local] Hint Resolve preserves_ret preserves_bind : frame.

Section Frame.

Context {B : Type} (f : state -> B).

(** [f] does not look at the trace. *)
Hypothesis f_trace : forall inp va l t t',
  f (mkState inp va l t) = f (mkState inp va l t').

Lemma f_log (e : event) (s : state) : f (log e s) = f s.
Proof. destruct s. apply f_trace. Qed.

Lemma cout_frame (text : string) : preserves f (cout text).
Proof. intros s. apply f_log. Qed.

Lemma cout_int_frame (n : Z) : preserves f (cout_int n).
Proof. apply cout_frame. Qed.

Lemma endl_frame : preserves f endl.
Proof. apply cout_frame. Qed.

Lemma get_a_frame : preserves f get_a.
Proof. intros s. unfold get_a. now destruct (a s). Qed.

Lemma arr_load_frame (i : Z) : preserves f (arr_load i).
Proof.
  intros s. unfold arr_load. destruct (decide (in_bounds i (arr s))); [|exact I].
  destruct (arr s !! Z.to_nat i) as [[v|]|]; try exact I. apply f_log.
Qed.

Hint Resolve cout_frame cout_int_frame endl_frame get_a_frame arr_load_frame : frame.

Lemma threshold_branch_frame (b : Z) : preserves f (threshold_branch b).
Proof. unfold threshold_branch. destruct (decide (b > 10)); eauto with frame. Qed.

Lemma print_loop_frame (i : Z) : preserves f (print_loop i).
Proof.
  funelim (print_loop i).
  - apply preserves_bind; [apply arr_load_frame|]. intros v.
    apply preserves_bind; [apply cout_int_frame|]. intros _.
    apply preserves_bind; [apply cout_frame|]. intros u s. exact (H v tt tt s s).
  - apply preserves_ret.
Qed.

(** [f] looks at [arr] only. *)
Hypothesis f_arr : forall s s', arr s = arr s' -> f s = f s'.

Lemma set_a_frame (v : Z) : preserves f (set_a v).
Proof. intros s. now apply f_arr. Qed.

Lemma cin_int_frame : preserves f cin_int.
Proof. intros s. unfold cin_int. destruct (stdin s); [exact I|]. now apply f_arr. Qed.

Hint Resolve set_a_frame cin_int_frame : frame.

Lemma hello_body_frame (msg : string) : preserves f (hello_body msg).
Proof. unfold hello_body. eauto 10 with frame. Qed.

Lemma hello_loop_frame (msg : string) : preserves f (hello_loop msg).
Proof.
  intros s. funelim (hello_loop msg s); try easy.
  pose proof (hello_body_frame msg s) as Hbody. rewrite Hb in Hbody.
  destruct (hello_loop msg s'); [congruence|exact I].
Qed.

End Frame.

(** A store changes one slot and never the number of slots. *)
Lemma arr_store_length (i v : Z) : preserves arr_length (arr_store i v).
Proof.
  intros s. unfold arr_store. destruct (decide (in_bounds i (arr s))); [|exact I].
  unfold arr_length, log. cbn. apply length_insert.
Qed.

Lemma fill_loop_frame {B : Type} (f : state -> B) (b i : Z) :
  (forall j v, preserves f (arr_store j v)) -> preserves f (fill_loop b i).
Proof.
  intros Hstore. funelim (fill_loop b i).
  - apply preserves_bind; [apply Hstore|]. intros u s. exact (H tt s B f Hstore s).
  - apply preserves_ret.
Qed.

(** When the while loop completes, its condition is false. *)
Lemma hello_loop_exit (msg : string) (s : state) :
  match hello_loop msg s with
  | Done _ s' => exists v, a s' = Some v /\ 10 <= v
  | Fault _ => True
  end.
Proof.
  funelim (hello_loop msg s); try easy.
  exists v. split; [assumption|lia].
Qed.

(** ** Printed integers *)

Lemma all_chars_app (p : ascii -> bool) (s1 s2 : string) :
  all_chars p (s1 +:+ s2) = all_chars p s1 && all_chars p s2.
Proof.
  induction s1 as [|c s1 IH]; simpl; [reflexivity|].
  now rewrite IH, andb_assoc.
Qed.

Lemma pretty_N_char_int_char (d : N) : int_char (pretty_N_char d) = true.
Proof. unfold pretty_N_char. repeat case_match; reflexivity. Qed.

Lemma pretty_N_go_int_chars (x : N) :
  forall s, all_chars int_char s = true ->
    all_chars int_char (pretty_N_go x s) = true.
Proof.
  induction (N.lt_wf_0 x) as [x _ IH]; intros s Hs.
  destruct (decide (x = 0)%N) as [->|Hx].
  - now rewrite pretty_N_go_0.
  - rewrite pretty_N_go_step by lia. apply IH.
    + apply N.div_lt; lia.
    + cbn [all_chars]. now rewrite pretty_N_char_int_char, Hs.
Qed.

Lemma pretty_N_int_chars (x : N) : all_chars int_char (pretty x) = true.
Proof.
  unfold pretty, pretty_N. case_decide; [reflexivity|].
  now apply pretty_N_go_int_chars.
Qed.

(** A printed [int] is a run of digits with at most a leading sign: no
    space and no line feed. *)
Lemma pretty_Z_int_chars (z : Z) : all_chars int_char (pretty z) = true.
Proof.
  destruct z as [|p|p]; unfold pretty, pretty_Z; [reflexivity| |].
  - apply pretty_N_int_chars.
  - rewrite all_chars_app. apply andb_true_iff. split; [reflexivity|].
    apply (pretty_N_int_chars (N.pos p)).
Qed.

(** ** Inputs on which nothing overflows *)

Lemma no_overflow_range (b : Z) : -46340 <= b <= 46338 -> no_overflow b.
Proof.
  intros Hb. unfold no_overflow, Int.in_int, Int.min_int, Int.max_int.
  repeat constructor; nia.
Qed.

(** Whatever the input, what the fill loop stores is representable. *)
Lemma squares_in_int (b : Z) : Forall Int.in_int (squares b).
Proof. repeat constructor; apply wrap_in_int. Qed.

Lemma square_exact (x : Z) : Int.in_int (x * x) -> square x = x * x.
Proof. apply wrap_small. Qed.

Lemma squares_exact (b : Z) :
  no_overflow b -> squares b = [b * b; (b + 1) * (b + 1); (b + 2) * (b + 2)].
Proof.
  unfold no_overflow, squares. rewrite !Forall_cons. cbn [fmap list_fmap].
  intros ([H0 S0] & [H1 S1] & [H2 S2] & _).
  rewrite !add_small, !square_exact by assumption.
  now rewrite Z.add_0_l, (Z.add_comm 1 b), (Z.add_comm 2 b).
Qed.

(** ** Output text of a trace *)

Lemma append_assoc (s1 s2 s3 : string) : (s1 +:+ s2) +:+ s3 = s1 +:+ s2 +:+ s3.
Proof.
  induction s1 as [|c s1 IH]; [reflexivity|].
  change (String c ((s1 +:+ s2) +:+ s3) = String c (s1 +:+ s2 +:+ s3)).
  now f_equal.
Qed.

Lemma stdout_app (t t' : list event) : stdout (t ++ t') = stdout t +:+ stdout t'.
Proof.
  induction t as [|e t IH]; [reflexivity|].
  destruct e; cbn [stdout app]; try assumption.
  rewrite IH. symmetry. apply append_assoc.
Qed.

(** ** The model at work *)

Example run_on_3 :
  output_of (run [3]) =
  Some ("Enter a number: " +:+ hello_lines +:+ line "Small number!"
        +:+ line "Array values: 9 16 25 ").
Proof. reflexivity. Qed.

Example run_on_11 :
  output_of (run [11; 4]) =
  Some ("Enter a number: " +:+ hello_lines +:+ line "Big number!"
        +:+ line "Array values: 121 144 169 ").
Proof. reflexivity. Qed.

Example run_on_negative :
  output_of (run [-2]) =
  Some ("Enter a number: " +:+ hello_lines +:+ line "Small number!"
        +:+ line "Array values: 4 1 0 ").
Proof. reflexivity. Qed.

(** At the top of the range [i + b] and the squares wrap around. *)
Example run_on_max_int :
  output_of (run [Int.max_int]) =
  Some ("Enter a number: " +:+ hello_lines +:+ line "Big number!"
        +:+ line "Array values: 1 0 1 ").
Proof. reflexivity. Qed.

(** The faults are live: a missing input, an index past the end, a slot read
    before it is written. *)
Example run_without_input : run [] = Fault NoInput.
Proof. reflexivity. Qed.

Example store_past_the_end :
  arr_store 3 7 (mkState [] None [None; None; None] []) = Fault (OutOfBounds 3).
Proof. reflexivity. Qed.

Example print_before_fill :
  print_loop 0 (mkState [] None [None; None; None] []) = Fault Indeterminate.
Proof. reflexivity. Qed.

(** ** The specification *)

(** C1.  For every input [b], the fill loop leaves [square(i + b)] in slot
    [i] of [arr], for [i] = 0, 1, 2: from any state in which [arr] has its
    three slots, at the point of [main] where the loop ends, and still at
    the end of the run.  Input 0 gives [0, 1, 4] and input 3 gives
    [9, 16, 25]. *)
Theorem fill_loop_squares :
  (forall b inp va x0 x1 x2 t,
     exists t',
       fill_loop b 0 (mkState inp va [x0; x1; x2] t) =
       Done tt (mkState inp va
                  [Some (square (Int.add 0 b)); Some (square (Int.add 1 b));
                   Some (square (Int.add 2 b))] t'))
  /\ (forall b rest,
        exists s,
          (set_a 5 ;; decl_arr 3 ;; cout "Enter a number: " ;;
           b' ← cin_int; fill_loop b' 0) (initial (b :: rest)) = Done tt s
          /\ arr s = [Some (square (Int.add 0 b)); Some (square (Int.add 1 b));
                      Some (square (Int.add 2 b))])
  /\ (forall b rest,
        exists s,
          run (b :: rest) = Done 0 s
          /\ arr s = [Some (square (Int.add 0 b)); Some (square (Int.add 1 b));
                      Some (square (Int.add 2 b))])
  /\ (forall rest,
        exists s, run (0 :: rest) = Done 0 s /\ arr s = [Some 0; Some 1; Some 4])
  /\ (forall rest,
        exists s, run (3 :: rest) = Done 0 s /\ arr s = [Some 9; Some 16; Some 25]).
Proof.
  split; [|split; [|split; [|split]]].
  - intros. rewrite fill_loop_run. eexists. reflexivity.
  - intros. unfold initial. run_prims. rewrite fill_loop_run.
    eexists. split; reflexivity.
  - intros. rewrite main_run. eexists. split; reflexivity.
  - intros. rewrite main_run. eexists. split; reflexivity.
  - intros. rewrite main_run. eexists. split; reflexivity.
Qed.

(** C2.  The threshold branch prints one line and nothing else:
    "Big number!" when [b > 10], "Small number!" otherwise.  The comparison
    is strict: input 10 prints "Small number!", as does 9, and 11 prints
    "Big number!". *)
Theorem threshold_branch_line :
  (forall b s,
     exists line,
       threshold_branch b s =
       Done tt (mkState (stdin s) (a s) (arr s)
                  (trace s ++ [Out line; Out newline]))
       /\ ((10 < b /\ line = "Big number!")
           \/ (b <= 10 /\ line = "Small number!")))
  /\ (forall b s,
        exists s',
          threshold_branch b s = Done tt s'
          /\ stdout (trace s') = stdout (trace s) +:+ verdict b +:+ newline)
  /\ (forall s,
        threshold_branch 10 s =
        Done tt (mkState (stdin s) (a s) (arr s)
                   (trace s ++ [Out "Small number!"; Out newline])))
  /\ (forall s,
        threshold_branch 9 s =
        Done tt (mkState (stdin s) (a s) (arr s)
                   (trace s ++ [Out "Small number!"; Out newline])))
  /\ (forall s,
        threshold_branch 11 s =
        Done tt (mkState (stdin s) (a s) (arr s)
                   (trace s ++ [Out "Big number!"; Out newline]))).
Proof.
  assert (Hline : forall b s,
            threshold_branch b s =
            Done tt (mkState (stdin s) (a s) (arr s)
                       (trace s ++ [Out (verdict b); Out newline]))).
  { intros b s. unfold threshold_branch, verdict.
    destruct (decide (b > 10)); run_prims; now rewrite <- app_assoc. }
  split; [|split; [|repeat split; intros s; apply Hline]].
  - intros b s. exists (verdict b). split; [apply Hline|].
    unfold verdict. destruct (decide (b > 10)); [left|right]; split; (lia || reflexivity).
  - intros b s. eexists. split; [apply Hline|].
    cbn [trace]. rewrite stdout_app. reflexivity.
Qed.

(** C3.  Whatever the input, the while loop makes exactly five passes, for
    [a] = 5, 6, 7, 8, 9, and prints the five lines "Hello 5" to "Hello 9":
    from any state in which [a] is 5, and so in every run, where the loop's
    events stand between the prompt and the verdict. *)
Theorem hello_loop_five_lines :
  (forall inp l t,
     hello_loop "Hello" (mkState inp (Some 5) l t) =
     Done tt (mkState inp (Some 10) l
                (t ++ flat_map (hello_events "Hello") [5; 6; 7; 8; 9])))
  /\ stdout (flat_map (hello_events "Hello") [5; 6; 7; 8; 9]) = hello_lines
  /\ writes_a (flat_map (hello_events "Hello") [5; 6; 7; 8; 9]) = [6; 7; 8; 9; 10]
  /\ (forall b rest,
        exists s pre post,
          run (b :: rest) = Done 0 s
          /\ trace s = pre ++ flat_map (hello_events "Hello") [5; 6; 7; 8; 9] ++ post
          /\ stdout pre = "Enter a number: "
          /\ writes_a pre = [5]
          /\ writes_a post = []
          /\ stdout post = line (verdict b) +:+ array_line (squares b)).
Proof.
  split; [|split; [|split]]; try reflexivity.
  - intros. now rewrite (hello_loop_count "Hello" 5) by (unfold Int.min_int; lia).
  - intros b rest. rewrite main_run.
    eexists.
    exists ([SetA 5; Out "Enter a number: "; In b]
            ++ ((fun i => Store i (square (Int.add i b))) <$> [0; 1; 2])).
    eexists. split; [reflexivity|]. split.
    { cbn [trace]. rewrite <- app_assoc. reflexivity. }
    repeat split; try reflexivity.
    unfold verdict. destruct (decide (b > 10)); reflexivity.
Qed.

(** C4.  [square] is a function of its argument alone, and wherever [x] is
    representable and [x * x] does not overflow it returns [x * x]; called
    from a program, it hands back that value and leaves the state as it
    was. *)
Theorem square_spec (x : Z) :
  Int.in_int x -> Int.in_int (x * x) ->
  square x = x * x
  /\ forall s, (mret (square x) : prog Z) s = Done (x * x) s.
Proof.
  intros _ Hsq. rewrite (square_exact x Hsq). split; reflexivity.
Qed.

Lemma square_spec_witness :
  Int.in_int (-46340) /\ Int.in_int (-46340 * -46340)
  /\ square (-46340) = 2147395600.
Proof.
  assert (Hx : Int.in_int (-46340)) by (unfold Int.in_int, Int.min_int, Int.max_int; lia).
  assert (Hsq : Int.in_int (-46340 * -46340))
    by (unfold Int.in_int, Int.min_int, Int.max_int; lia).
  split; [exact Hx|]. split; [exact Hsq|].
  exact (proj1 (square_spec (-46340) Hx Hsq)).
Defined.

(** C5.  For every input [b] the console traffic is, in this order: the
    prompt "Enter a number: " (no line feed follows it before the read),
    the read of [b], the five "Hello" lines for 5 to 9, one line that is
    "Big number!" or "Small number!", and a last line that begins with
    "Array values: ". *)
Theorem output_order (b : Z) (rest : list Z) :
  exists s,
    run (b :: rest) = Done 0 s
    /\ io (trace s) =
         [Out "Enter a number: "; In b]
         ++ flat_map (fun v => [Out "Hello"; Out " "; Out (pretty v); Out newline])
              [5; 6; 7; 8; 9]
         ++ [Out (verdict b); Out newline]
         ++ [Out "Array values: "]
         ++ flat_map (fun v => [Out (pretty v); Out " "]) (squares b)
         ++ [Out newline]
    /\ (verdict b = "Big number!" \/ verdict b = "Small number!")
    /\ stdout (trace s) =
         "Enter a number: "
         +:+ line "Hello 5" +:+ line "Hello 6" +:+ line "Hello 7"
         +:+ line "Hello 8" +:+ line "Hello 9"
         +:+ line (verdict b)
         +:+ array_line (squares b).
Proof.
  rewrite main_run. eexists. split; [reflexivity|].
  split; [reflexivity|].
  unfold verdict. destruct (decide (b > 10)); split; (reflexivity || (now left) || (now right)).
Qed.

(** C6.  For every input [b] the output ends with one line made of the
    label "Array values: ", the three elements of [arr] in index order, each
    followed by one space, and the line feed; the elements are printed as
    plain integers, so the spaces are the only separators. *)
Theorem final_line (b : Z) (rest : list Z) :
  exists s v0 v1 v2 before,
    run (b :: rest) = Done 0 s
    /\ arr s = [Some v0; Some v1; Some v2]
    /\ stdout (trace s) =
         line before
         +:+ "Array values: " +:+ pretty v0 +:+ " " +:+ pretty v1 +:+ " "
         +:+ pretty v2 +:+ " " +:+ newline
    /\ all_chars int_char (pretty v0) = true
    /\ all_chars int_char (pretty v1) = true
    /\ all_chars int_char (pretty v2) = true
    /\ int_char " " = false
    /\ all_chars int_char newline = false.
Proof.
  rewrite main_run. eexists. do 3 eexists.
  exists ("Enter a number: " +:+ hello_lines +:+ verdict b).
  split; [reflexivity|]. split; [reflexivity|]. split.
  { unfold verdict. destruct (decide (b > 10)); reflexivity. }
  rewrite !pretty_Z_int_chars. repeat split; reflexivity.
Qed.

(** C7.  For every input [b] the program runs to completion and its exit
    code is 0.  No run ends with another code: the program stops early only
    when there is no input to read at all. *)
Theorem main_exit_code :
  (forall b rest, exists s, run (b :: rest) = Done 0 s)
  /\ (forall input,
        match run input with
        | Done code _ => code = 0
        | Fault f => input = [] /\ f = NoInput
        end).
Proof.
  split.
  - intros b rest. rewrite main_run. eexists. reflexivity.
  - intros [|b rest]; [now split|]. now rewrite main_run.
Qed.

(** C8.  [arr] has three slots from its declaration on: every statement that
    runs after the declaration leaves the number of slots as it is.  The
    fill loop stores once into each of the slots 0, 1, 2 and the printing
    loop loads once from each.  In every run each access to [arr] uses an
    index from 0 to 2, and each slot sees exactly one store followed by
    exactly one load, which reads the value stored. *)
Theorem arr_accesses_safe :
  (forall s, exists s', decl_arr 3 s = Done tt s' /\ arr_length s' = 3%nat)
  /\ (forall text, preserves arr_length (cout text))
  /\ preserves arr_length cin_int
  /\ (forall b i, preserves arr_length (fill_loop b i))
  /\ (forall msg, preserves arr_length (hello_loop msg))
  /\ (forall b, preserves arr_length (threshold_branch b))
  /\ (forall i, preserves arr_length (print_loop i))
  /\ preserves arr_length endl
  /\ (forall b inp va x0 x1 x2 t,
        exists v0 v1 v2,
          fill_loop b 0 (mkState inp va [x0; x1; x2] t) =
          Done tt (mkState inp va [Some v0; Some v1; Some v2]
                     (t ++ [Store 0 v0; Store 1 v1; Store 2 v2])))
  /\ (forall inp va v0 v1 v2 t,
        exists t',
          print_loop 0 (mkState inp va [Some v0; Some v1; Some v2] t) =
          Done tt (mkState inp va [Some v0; Some v1; Some v2] (t ++ t'))
          /\ List.filter (on_slot 0) t' = [Load 0 v0]
          /\ List.filter (on_slot 1) t' = [Load 1 v1]
          /\ List.filter (on_slot 2) t' = [Load 2 v2])
  /\ (forall b rest,
        exists s v0 v1 v2,
          run (b :: rest) = Done 0 s
          /\ arr_length s = 3%nat
          /\ accessed (trace s) = [0; 1; 2; 0; 1; 2]
          /\ Forall (fun i => 0 <= i <= 2) (accessed (trace s))
          /\ slot_events 0 (trace s) = [Store 0 v0; Load 0 v0]
          /\ slot_events 1 (trace s) = [Store 1 v1; Load 1 v1]
          /\ slot_events 2 (trace s) = [Store 2 v2; Load 2 v2]).
Proof.
  assert (Htrace : forall inp va l t t',
            arr_length (mkState inp va l t) = arr_length (mkState inp va l t'))
    by reflexivity.
  assert (Harr : forall s s', arr s = arr s' -> arr_length s = arr_length s')
    by (unfold arr_length; now intros s s' ->).
  split; [|split; [|split; [|split; [|split; [|split; [|split; [|split;
    [|split; [|split]]]]]]]]].
  - intros s. eexists. split; reflexivity.
  - intros text. now apply cout_frame.
  - now apply cin_int_frame.
  - intros b i. apply fill_loop_frame, arr_store_length.
  - intros msg. now apply hello_loop_frame.
  - intros b. now apply threshold_branch_frame.
  - intros i. now apply print_loop_frame.
  - now apply endl_frame.
  - intros. rewrite fill_loop_run. do 3 eexists. reflexivity.
  - intros. rewrite print_loop_run. eexists. repeat split; reflexivity.
  - intros b rest. rewrite main_run. do 4 eexists.
    split; [reflexivity|]. split; [reflexivity|]. split; [reflexivity|].
    split; [|repeat split; reflexivity].
    cbn. repeat constructor; lia.
Qed.

(** C9.  The standard output of a run is a function of the one integer it
    reads: the run on input [b] takes [b] from standard input, reads nothing
    more, and writes [expected_output b], whatever else waits on the input;
    two runs on the same integer write the same text. *)
Theorem output_deterministic :
  (forall b rest,
     exists s,
       run (b :: rest) = Done 0 s
       /\ reads (trace s) = [b]
       /\ stdin s = rest
       /\ stdout (trace s) = expected_output b)
  /\ (forall b rest rest',
        output_of (run (b :: rest)) = output_of (run (b :: rest'))
        /\ output_of (run (b :: rest)) = Some (expected_output b)).
Proof.
  assert (Hrun : forall b rest,
            exists s,
              run (b :: rest) = Done 0 s
              /\ reads (trace s) = [b]
              /\ stdin s = rest
              /\ stdout (trace s) = expected_output b).
  { intros b rest. rewrite main_run. eexists.
    split; [reflexivity|]. split; [reflexivity|]. split; [reflexivity|].
    unfold expected_output, verdict. destruct (decide (b > 10)); reflexivity. }
  split; [exact Hrun|].
  intros b rest rest'.
  destruct (Hrun b rest) as (s & -> & _ & _ & Hs).
  destruct (Hrun b rest') as (s' & -> & _ & _ & Hs').
  cbn [output_of]. rewrite Hs, Hs'. split; reflexivity.
Qed.

(** C10.  The while loop ends with [a] equal to 10 (it never ends with [a]
    below 10, and entered at 5 it stops at 10 exactly), and nothing writes
    to [a] afterwards: the statements after the loop leave [a] alone, and in
    every run the writes to [a] are the initial 5 and the five increments,
    the last of them the loop's final event. *)
Theorem counter_ends_at_ten :
  (forall inp l t,
     exists s', hello_loop "Hello" (mkState inp (Some 5) l t) = Done tt s'
                /\ a s' = Some 10)
  /\ (forall msg s,
        match hello_loop msg s with
        | Done _ s' => exists v, a s' = Some v /\ 10 <= v
        | Fault _ => True
        end)
  /\ (forall b,
        preserves a (threshold_branch b ;; cout "Array values: " ;;
                     print_loop 0 ;; endl ;; mret 0))
  /\ (forall b rest,
        exists s pre post,
          run (b :: rest) = Done 0 s
          /\ a s = Some 10
          /\ trace s = pre ++ [SetA 10] ++ Out (verdict b) :: post
          /\ writes_a pre = [5; 6; 7; 8; 9]
          /\ writes_a (Out (verdict b) :: post) = []).
Proof.
  split; [|split; [|split]].
  - intros. rewrite (hello_loop_count "Hello" 5) by (unfold Int.min_int; lia).
    eexists. split; reflexivity.
  - apply hello_loop_exit.
  - intros b.
    assert (Htrace : forall inp va l t t',
              a (mkState inp va l t) = a (mkState inp va l t')) by reflexivity.
    repeat (apply preserves_bind; [|intros _]);
      auto using threshold_branch_frame, cout_frame, print_loop_frame,
                 endl_frame, preserves_ret.
  - intros b rest. rewrite main_run. eexists.
    exists ([SetA 5; Out "Enter a number: "; In b]
            ++ ((fun i => Store i (square (Int.add i b))) <$> [0; 1; 2])
            ++ flat_map (hello_events "Hello") [5; 6; 7; 8]
            ++ [Out "Hello"; Out " "; Out (pretty 9); Out newline]).
    eexists. repeat split; reflexivity.
Qed.

(** * Further properties of the code *)

(** ** Arithmetic modulo [2^32] *)

Lemma wrap_shift (z k : Z) : Int.wrap (z + k * Int.modulus) = Int.wrap z.
Proof.
  unfold Int.wrap.
  replace (z + k * Int.modulus - Int.min_int)
    with (z - Int.min_int + k * Int.modulus) by lia.
  now rewrite Z.mod_add by (unfold Int.modulus; lia).
Qed.

(** [wrap z] differs from [z] by a multiple of [2^32]. *)
Lemma wrap_spec (z : Z) : exists k, Int.wrap z = z + k * Int.modulus.
Proof.
  exists (- ((z - Int.min_int) / Int.modulus)). unfold Int.wrap.
  rewrite Z.mod_eq by (unfold Int.modulus; lia). lia.
Qed.

Lemma wrap_mul_wrap (x y : Z) : Int.wrap (Int.wrap x * Int.wrap y) = Int.wrap (x * y).
Proof.
  destruct (wrap_spec x) as [k ->]. destruct (wrap_spec y) as [l ->].
  replace ((x + k * Int.modulus) * (y + l * Int.modulus))
    with (x * y + (x * l + k * y + k * l * Int.modulus) * Int.modulus) by ring.
  apply wrap_shift.
Qed.

(** What the fill loop stores for index [i]: the square of [i + b], reduced
    once. *)
Lemma square_add (i b : Z) : square (Int.add i b) = Int.wrap ((i + b) * (i + b)).
Proof. apply wrap_mul_wrap. Qed.

(** X1.  [square] returns the true square exactly on the arguments from
    -46340 to 46340; everywhere else the product does not fit an [int] and
    the result is another number. *)
Theorem square_exact_iff (x : Z) : square x = x * x <-> -46340 <= x <= 46340.
Proof.
  split.
  - intros Hx. pose proof (wrap_in_int (x * x)) as Hr.
    change (Int.wrap (x * x)) with (square x) in Hr. rewrite Hx in Hr.
    unfold Int.in_int, Int.min_int, Int.max_int in Hr. nia.
  - intros Hx. apply square_exact.
    unfold Int.in_int, Int.min_int, Int.max_int. nia.
Qed.

(** X2.  A run leaves the true squares [b^2], [(b+1)^2], [(b+2)^2] in [arr]
    exactly when the input lies between -46340 and 46338. *)
Theorem run_exact_iff (b : Z) (rest : list Z) :
  exists s,
    run (b :: rest) = Done 0 s
    /\ (arr s = Some <$> exact_squares b <-> -46340 <= b <= 46338).
Proof.
  rewrite main_run. eexists. split; [reflexivity|]. cbn [arr]. split.
  - intros Heq. apply (inj (fmap Some)) in Heq.
    pose proof (squares_in_int b) as Hin. rewrite Heq in Hin.
    unfold exact_squares in Hin. rewrite !Forall_cons in Hin.
    unfold Int.in_int, Int.min_int, Int.max_int in Hin. nia.
  - intros Hb. f_equal. now apply squares_exact, no_overflow_range.
Qed.

Lemma squares_period (b : Z) : squares (b + 2147483648) = squares b.
Proof.
  assert (Hslot : forall i,
            square (Int.add i (b + 2147483648)) = square (Int.add i b)).
  { intros i. rewrite (square_add i (b + 2147483648)), (square_add i b).
    replace ((i + (b + 2147483648)) * (i + (b + 2147483648)))
      with ((i + b) * (i + b) + (i + b + 1073741824) * Int.modulus)
      by (unfold Int.modulus; ring).
    apply wrap_shift. }
  unfold squares. cbn [fmap list_fmap].
  rewrite (Hslot 0), (Hslot 1), (Hslot 2). reflexivity.
Qed.

Lemma run_output (b : Z) (rest : list Z) :
  output_of (run (b :: rest)) = Some (expected_output b).
Proof.
  rewrite main_run. unfold expected_output, verdict.
  destruct (decide (b > 10)); reflexivity.
Qed.


(** X4.  The output does not always tell the inputs apart: each of the
    eleven lowest [int] values, [INT_MIN + k] for [k] from 0 to 10, makes
    the program print exactly what it prints for [k]. *)
Theorem low_inputs_collide (k : Z) (rest rest' : list Z) :
  0 <= k <= 10 ->
  Int.in_int (Int.min_int + k)
  /\ Int.min_int + k <> k
  /\ output_of (run (Int.min_int + k :: rest)) = output_of (run (k :: rest')).
Proof.
  intros Hk. split; [unfold Int.in_int, Int.min_int, Int.max_int; lia|].
  split; [unfold Int.min_int; lia|].
  rewrite !run_output. f_equal. unfold expected_output, verdict.
  rewrite !decide_False by (unfold Int.min_int; lia).
  rewrite <- (squares_period (Int.min_int + k)).
  now replace (Int.min_int + k + 2147483648) with k by (unfold Int.min_int; lia).
Qed.

Lemma low_inputs_collide_witness :
  0 <= 0 <= 10
  /\ output_of (run [Int.min_int + 0]) = output_of (run [0]).
Proof.
  assert (H : 0 <= 0 <= 10) by lia.
  split; [exact H|].
  exact (proj2 (proj2 (low_inputs_collide 0 [] [] H))).
Defined.

(** ** The loops from any starting point *)

(** X5.  The fill loop entered with index [i] on a three-slot array: from a
    negative [i] the first store is out of bounds; otherwise the slots below
    [i] keep what they held, the slots from [i] on receive their squares,
    one store each in rising order, and from [i >= 3] nothing happens at
    all. *)
Theorem fill_loop_from (b i : Z) (inp : list Z) (va x0 x1 x2 : option Z)
    (t : list event) :
  fill_loop b i (mkState inp va [x0; x1; x2] t) =
  if decide (0 <= i) then
    Done tt (mkState inp va
               (take (Z.to_nat i) [x0; x1; x2]
                ++ ((fun j => Some (square (Int.add j b))) <$> seqZ i (3 - i)))
               (t ++ ((fun j => Store j (square (Int.add j b))) <$> seqZ i (3 - i))))
  else Fault (OutOfBounds i).
Proof.
  destruct (decide (0 <= i)) as [Hi|Hi].
  - assert (Hcases : i = 0 \/ i = 1 \/ i = 2 \/ 3 <= i) by lia.
    destruct Hcases as [->|[->|[->|Hge]]].
    + rewrite fill_loop_run. reflexivity.
    + rewrite fill_loop_step, decide_True by lia. run_prims.
      change (Int.add 1 1) with 2.
      rewrite fill_loop_step, decide_True by lia. run_prims.
      change (Int.add 2 1) with 3.
      rewrite fill_loop_step, decide_False by lia.
      cbn. rewrite <- !app_assoc. reflexivity.
    + rewrite fill_loop_step, decide_True by lia. run_prims.
      change (Int.add 2 1) with 3.
      rewrite fill_loop_step, decide_False by lia. reflexivity.
    + rewrite fill_loop_step, decide_False by lia.
      rewrite seqZ_nil by lia.
      rewrite take_ge by (cbn [length]; lia).
      cbn [fmap list_fmap]. now rewrite !app_nil_r.
  - rewrite fill_loop_step, decide_True by lia.
    unfold mbind, prog_bind, arr_store. cbn [arr].
    rewrite decide_False by (unfold in_bounds; lia). reflexivity.
Qed.

(** X6.  The while loop entered with [a = v], for any [int] value [v]: it
    makes one pass for each value from [v] to 9 (none when [v >= 10]) and
    ends with [a] equal to the larger of [v] and 10, having touched neither
    the array nor the input. *)
Theorem hello_loop_from (msg : string) (v : Z) (inp : list Z)
    (l : list (option Z)) (t : list event) :
  Int.in_int v ->
  hello_loop msg (mkState inp (Some v) l t) =
  Done tt (mkState inp (Some (Z.max v 10)) l
             (t ++ flat_map (hello_events msg) (seqZ v (10 - v)))).
Proof.
  intros [Hmin _]. destruct (decide (v <= 10)) as [Hle|Hgt].
  - rewrite (hello_loop_count msg (Z.to_nat (10 - v))) by lia.
    rewrite Z2Nat.id by lia. now rewrite Z.max_r by lia.
  - rewrite hello_loop_step. run_prims. rewrite decide_False by lia.
    rewrite seqZ_nil by lia. cbn. rewrite app_nil_r.
    now rewrite Z.max_l by lia.
Qed.

Lemma hello_loop_from_witness :
  Int.in_int 7
  /\ hello_loop "Hello" (mkState [] (Some 7) [] []) =
     Done tt (mkState [] (Some 10) []
                (flat_map (hello_events "Hello") [7; 8; 9])).
Proof.
  assert (H : Int.in_int 7) by (unfold Int.in_int, Int.min_int, Int.max_int; lia).
  split; [exact H|].
  exact (hello_loop_from "Hello" 7 [] [] [] H).
Defined.

(** X7.  The printing loop reads all three slots: on a three-slot array it
    completes exactly when every slot has been written, and then prints the
    three values, each followed by a space, and changes nothing but the
    trace; with any slot unwritten it reads an indeterminate value. *)
Theorem print_loop_defined (inp : list Z) (va x0 x1 x2 : option Z)
    (t : list event) :
  print_loop 0 (mkState inp va [x0; x1; x2] t) =
  match x0, x1, x2 with
  | Some v0, Some v1, Some v2 =>
      Done tt (mkState inp va [x0; x1; x2]
                 (t ++ [Load 0 v0; Out (pretty v0); Out " ";
                        Load 1 v1; Out (pretty v1); Out " ";
                        Load 2 v2; Out (pretty v2); Out " "]))
  | _, _, _ => Fault Indeterminate
  end.
Proof.
  destruct x0 as [v0|]; [|now rewrite print_loop_step, decide_True by lia].
  destruct x1 as [v1|].
  - destruct x2 as [v2|]; [apply print_loop_run|].
    rewrite print_loop_step, decide_True by lia. run_prims.
    change (Int.add 0 1) with 1.
    rewrite print_loop_step, decide_True by lia. run_prims.
    change (Int.add 1 1) with 2.
    now rewrite print_loop_step, decide_True by lia.
  - rewrite print_loop_step, decide_True by lia. run_prims.
    change (Int.add 0 1) with 1.
    now rewrite print_loop_step, decide_True by lia.
Qed.

(** X8.  Filling then printing never depends on what [arr] held before:
    whatever the three slots contain, written or not, the two loops in
    sequence complete and print the squares for [b]. *)
Theorem fill_then_print (b : Z) (inp : list Z) (va x0 x1 x2 : option Z)
    (t : list event) :
  exists t',
    (fill_loop b 0 ;; print_loop 0) (mkState inp va [x0; x1; x2] t) =
    Done tt (mkState inp va (Some <$> squares b) (t ++ t'))
    /\ stdout t' =
       foldr (fun v rest => pretty v +:+ " " +:+ rest) "" (squares b).
Proof.
  unfold mbind at 1. unfold prog_bind. rewrite fill_loop_run.
  change (Some <$> squares b)
    with [Some (square (Int.add 0 b)); Some (square (Int.add 1 b));
          Some (square (Int.add 2 b))].
  rewrite print_loop_run. rewrite <- app_assoc.
  eexists. split; reflexivity.
Qed.

(** ** What each part of the program leaves alone *)

Lemma hello_loop_keeps {B : Type} (f : state -> B) (msg : string) :
  preserves f (hello_body msg) -> preserves f (hello_loop msg).
Proof.
  intros Hbody s. funelim (hello_loop msg s); try easy.
  match goal with IH : forall B f, preserves f _ -> _ |- _ =>
    specialize (IH B f Hbody)
  end.
  specialize (Hbody s). rewrite Hb in Hbody.
  destruct (hello_loop msg s'); [congruence|exact I].
Qed.

Lemma hello_body_stdin (msg : string) : preserves stdin (hello_body msg).
Proof. intros s. unfold hello_body. run_prims. now destruct (a s). Qed.

Lemma arr_store_keeps {B : Type} (f : state -> B) (i v : Z) :
  (forall inp va l l' t t', f (mkState inp va l t) = f (mkState inp va l' t')) ->
  preserves f (arr_store i v).
Proof.
  intros Hf s. unfold arr_store.
  destruct (decide (in_bounds i (arr s))); [|exact I].
  destruct s. apply Hf.
Qed.

(** X9.  Each part of the program changes only what is its own.  The fill
    loop never touches [a] or the pending input; the while loop never
    touches [arr] or the pending input; the printing loop and the threshold
    branch touch none of [a], [arr] and the pending input. *)
Theorem parts_leave_alone :
  (forall b i, preserves a (fill_loop b i))
  /\ (forall b i, preserves stdin (fill_loop b i))
  /\ (forall msg, preserves arr (hello_loop msg))
  /\ (forall msg, preserves stdin (hello_loop msg))
  /\ (forall i, preserves a (print_loop i))
  /\ (forall i, preserves arr (print_loop i))
  /\ (forall i, preserves stdin (print_loop i))
  /\ (forall b, preserves a (threshold_branch b))
  /\ (forall b, preserves arr (threshold_branch b))
  /\ (forall b, preserves stdin (threshold_branch b)).
Proof.
  split; [|split; [|split; [|split; [|split; [|split; [|split; [|split; [|split]]]]]]]].
  - intros b i. apply fill_loop_frame. intros j v. now apply arr_store_keeps.
  - intros b i. apply fill_loop_frame. intros j v. now apply arr_store_keeps.
  - intros msg. now apply hello_loop_frame.
  - intros msg. apply hello_loop_keeps, hello_body_stdin.
  - intros i. now apply print_loop_frame.
  - intros i. now apply print_loop_frame.
  - intros i. now apply print_loop_frame.
  - intros b. now apply threshold_branch_frame.
  - intros b. now apply threshold_branch_frame.
  - intros b. now apply threshold_branch_frame.
Qed.

(** ** The shape of the output text *)

Lemma append_inv_head (p s s' : string) : p +:+ s = p +:+ s' -> s = s'.
Proof.
  induction p as [|c p IH]; [easy|].
  intros H. apply IH. now injection H.
Qed.

Lemma length_append (s1 s2 : string) :
  String.length (s1 +:+ s2) = (String.length s1 + String.length s2)%nat.
Proof.
  induction s1 as [|c s1 IH]; [reflexivity|].
  change (S (String.length (s1 +:+ s2))
          = S (String.length s1 + String.length s2)%nat).
  now rewrite IH.
Qed.

Lemma count_char_app (c : ascii) (s1 s2 : string) :
  count_char c (s1 +:+ s2) = (count_char c s1 + count_char c s2)%nat.
Proof.
  induction s1 as [|d s1 IH]; [reflexivity|].
  change (((if Ascii.eqb c d then 1 else 0) + count_char c (s1 +:+ s2))%nat
          = ((if Ascii.eqb c d then 1 else 0) + count_char c s1
             + count_char c s2)%nat).
  rewrite IH. lia.
Qed.

(** A character that no printed integer contains does not occur in a text
    made of such characters. *)
Lemma count_char_absent (p : ascii -> bool) (c : ascii) (s : string) :
  p c = false -> all_chars p s = true -> count_char c s = 0%nat.
Proof.
  intros Hc. induction s as [|d s IH]; [reflexivity|].
  cbn [all_chars count_char]. intros [Hd Hs]%andb_true_iff.
  rewrite (IH Hs). destruct (Ascii.eqb_spec c d) as [->|_]; [congruence|reflexivity].
Qed.

(** Two texts that each run up to their first separator, then agree as
    wholes, agree part by part. *)
Lemma separator_split (p : ascii -> bool) (s1 s1' : string) (c c' : ascii)
    (r r' : string) :
  all_chars p s1 = true -> all_chars p s1' = true ->
  p c = false -> p c' = false ->
  s1 +:+ String c r = s1' +:+ String c' r' ->
  s1 = s1' /\ c = c' /\ r = r'.
Proof.
  intros H1 H1' Hc Hc'. revert s1' H1'.
  induction s1 as [|d s1 IH]; intros [|d' s1'] H1' Heq.
  - now injection Heq.
  - injection Heq as -> _. cbn [all_chars] in H1'.
    apply andb_true_iff in H1' as [Hd _]. congruence.
  - injection Heq as -> _. cbn [all_chars] in H1.
    apply andb_true_iff in H1 as [Hd _]. congruence.
  - injection Heq as -> Heq. cbn [all_chars] in H1, H1'.
    apply andb_true_iff in H1 as [_ H1]. apply andb_true_iff in H1' as [_ H1'].
    destruct (IH H1 s1' H1' Heq) as (-> & -> & ->). easy.
Qed.

(** The elements of a printed line, read back one separator at a time. *)
Lemma array_body_inj (vs vs' : list Z) :
  foldr (fun v rest => pretty v +:+ " " +:+ rest) newline vs
  = foldr (fun v rest => pretty v +:+ " " +:+ rest) newline vs' ->
  vs = vs'.
Proof.
  revert vs'.
  induction vs as [|v vs IH]; intros [|v' vs'] H; cbn [foldr] in H.
  - reflexivity.
  - exfalso.
    destruct (separator_split int_char "" (pretty v') "010" " " "" _
                eq_refl (pretty_Z_int_chars v') eq_refl eq_refl H)
      as (_ & Hc & _).
    discriminate Hc.
  - exfalso.
    destruct (separator_split int_char (pretty v) "" " " "010" _ ""
                (pretty_Z_int_chars v) eq_refl eq_refl eq_refl H)
      as (_ & Hc & _).
    discriminate Hc.
  - destruct (separator_split int_char (pretty v) (pretty v') " " " " _ _
                (pretty_Z_int_chars v) (pretty_Z_int_chars v') eq_refl eq_refl H)
      as (Hv & _ & Hrest).
    apply (inj pretty) in Hv. subst v'. f_equal. now apply IH.
Qed.



(** X11.  On the inputs from -46340 to 46338, where the squares are exact,
    the output tells the input: two runs that print the same text read the
    same integer. *)
Theorem output_tells_input (b b' : Z) (rest rest' : list Z) :
  -46340 <= b <= 46338 -> -46340 <= b' <= 46338 ->
  output_of (run (b :: rest)) = output_of (run (b' :: rest')) ->
  b = b'.
Proof.
  intros Hb Hb'. rewrite !run_output. intros H. apply (inj Some) in H.
  unfold expected_output in H.
  apply (append_inv_head ("Enter a number: " +:+ hello_lines)) in H.
  assert (Hsq : squares b = squares b').
  { unfold verdict in H.
    destruct (decide (b > 10)), (decide (b' > 10)); try discriminate H.
    - apply (append_inv_head (line "Big number!")) in H.
      now apply (append_inv_head "Array values: "), array_body_inj in H.
    - apply (append_inv_head (line "Small number!")) in H.
      now apply (append_inv_head "Array values: "), array_body_inj in H. }
  rewrite !squares_exact in Hsq by now apply no_overflow_range.
  injection Hsq as H0 H1 _. lia.
Qed.

Lemma output_tells_input_witness :
  -46340 <= 3 <= 46338 /\ -46340 <= 1 + 2 <= 46338
  /\ output_of (run [3]) = output_of (run [1 + 2; 8])
  /\ 3 = 1 + 2.
Proof.
  assert (H1 : -46340 <= 3 <= 46338) by lia.
  assert (H2 : -46340 <= 1 + 2 <= 46338) by lia.
  assert (H3 : output_of (run [3]) = output_of (run [1 + 2; 8])) by reflexivity.
  split; [exact H1|]. split; [exact H2|]. split; [exact H3|].
  exact (output_tells_input 3 (1 + 2) [] [8] H1 H2 H3).
Defined.

(** X12.  Every run prints exactly seven lines: the output holds seven line
    feeds, the last of them its last character, whatever the input. *)
Theorem output_has_seven_lines (b : Z) (rest : list Z) :
  exists out body,
    output_of (run (b :: rest)) = Some out
    /\ out = body +:+ newline
    /\ count_char "010" out = 7%nat.
Proof.
  rewrite run_output. eexists.
  exists ("Enter a number: " +:+ hello_lines +:+ line (verdict b)
          +:+ "Array values: "
          +:+ foldr (fun (v : Z) tl => pretty v +:+ " " +:+ tl) "" (squares b)).
  split; [reflexivity|].
  assert (Hint : forall v : Z, count_char "010" (pretty v) = 0%nat).
  { intros v. now apply (count_char_absent int_char), pretty_Z_int_chars. }
  unfold expected_output, verdict. split.
  - destruct (decide (b > 10)); unfold squares; cbn [fmap list_fmap foldr];
      unfold array_line; cbn [foldr];
      rewrite !append_assoc; reflexivity.
  - unfold array_line, squares. cbn [fmap list_fmap foldr].
    rewrite !count_char_app, !Hint.
    destruct (decide (b > 10)); reflexivity.
Qed.

(** ** How long the output can be *)

Lemma pretty_N_go_length_ge (x : N) :
  forall s, (String.length s <= String.length (pretty_N_go x s))%nat.
Proof.
  induction (N.lt_wf_0 x) as [x _ IH]; intros s.
  destruct (decide (x = 0)%N) as [->|Hx]; [now rewrite pretty_N_go_0|].
  rewrite pretty_N_go_step by lia.
  etrans; [|apply IH; apply N.div_lt; lia]. cbn [String.length]. lia.
Qed.

Lemma pretty_N_go_length_pos (x : N) (s : string) :
  (0 < x)%N -> (S (String.length s) <= String.length (pretty_N_go x s))%nat.
Proof.
  intros Hx. rewrite pretty_N_go_step by assumption.
  etrans; [|apply pretty_N_go_length_ge]. reflexivity.
Qed.

Lemma pretty_N_go_length_le (k : nat) :
  forall x s, (x < 10 ^ N.of_nat k)%N ->
    (String.length (pretty_N_go x s) <= String.length s + k)%nat.
Proof.
  induction k as [|k IH]; intros x s Hx.
  - assert (x = 0%N) as -> by (cbn in Hx; lia). rewrite pretty_N_go_0. lia.
  - destruct (decide (x = 0)%N) as [->|Hne]; [rewrite pretty_N_go_0; lia|].
    rewrite pretty_N_go_step by lia.
    etrans; [apply IH|cbn [String.length]; lia].
    apply N.Div0.div_lt_upper_bound.
    now rewrite Nat2N.inj_succ, N.pow_succ_r' in Hx.
Qed.

(** A printed [int] has from one to eleven characters. *)
Lemma pretty_int_length (z : Z) :
  Int.in_int z -> (1 <= String.length (pretty z) <= 11)%nat.
Proof.
  unfold Int.in_int, Int.min_int, Int.max_int. intros Hz.
  assert (Hpos : forall p : positive, (Z.pos p <= 2147483648)%Z ->
            (1 <= String.length (pretty (N.pos p)) <= 10)%nat).
  { intros p Hp. unfold pretty, pretty_N. rewrite decide_False by lia. split.
    - apply (pretty_N_go_length_pos (N.pos p) ""). lia.
    - apply (pretty_N_go_length_le 10 (N.pos p) "").
      change (10 ^ N.of_nat 10)%N with 10000000000%N. lia. }
  destruct z as [|p|p]; unfold pretty, pretty_Z.
  - cbn. lia.
  - pose proof (Hpos p ltac:(lia)) as Hp. unfold pretty, pretty_positive. lia.
  - pose proof (Hpos p ltac:(lia)) as Hp. rewrite length_append.
    unfold pretty, pretty_positive. cbn [String.length]. lia.
Qed.

(** X13.  The output of a run is at least 89 and at most 121 characters
    long, whatever the input. *)
Theorem output_length_bounds (b : Z) (rest : list Z) :
  exists out,
    output_of (run (b :: rest)) = Some out
    /\ (89 <= String.length out <= 121)%nat.
Proof.
  rewrite run_output. eexists. split; [reflexivity|].
  pose proof (pretty_int_length _ (wrap_in_int (Int.add 0 b * Int.add 0 b))) as H0.
  pose proof (pretty_int_length _ (wrap_in_int (Int.add 1 b * Int.add 1 b))) as H1.
  pose proof (pretty_int_length _ (wrap_in_int (Int.add 2 b * Int.add 2 b))) as H2.
  change (Int.wrap (Int.add 0 b * Int.add 0 b)) with (square (Int.add 0 b)) in H0.
  change (Int.wrap (Int.add 1 b * Int.add 1 b)) with (square (Int.add 1 b)) in H1.
  change (Int.wrap (Int.add 2 b * Int.add 2 b)) with (square (Int.add 2 b)) in H2.
  unfold expected_output, array_line, squares, verdict.
  cbn [fmap list_fmap foldr]. rewrite !length_append.
  change (String.length hello_lines) with 40%nat.
  destruct (decide (b > 10)).
  - change (String.length (line "Big number!")) with 12%nat.
    cbn [String.length newline]. lia.
  - change (String.length (line "Small number!")) with 14%nat.
    cbn [String.length newline]. lia.
Qed.
